(** * app.py: the Gradio front end of the History-Data Collaboration System

    The module does two things: at import time it checks the credential and
    builds the one [HistoryDataCollaborationSystem]; per request it runs
    [process_query], which guards against blank input, calls the engine and
    turns an [Exception] into a display string.

    Python [str] values are sequences of Unicode code points, so they are
    modelled as [list N]; the engine is external and appears as a parameter. *)

From stdpp Require Import base option list strings gmap.
From Stdlib Require Import ZArith NArith.

Local Open Scope Z_scope.

(** ** Python values *)
Module Py.

(** A [str] is a list of code points. *)
Abbreviation str := (list N).

(** An ASCII literal of the source, as code points. *)
Definition lit (s : string) : str :=
  map Ascii.N_of_ascii (String.list_ascii_of_string s).

(** The code points for which [str.isspace] holds (CPython's
    [_PyUnicode_IsWhitespace]): the ASCII controls TAB..CR and FS..US, the
    space, NEL, NBSP and the Unicode space separators. *)
Definition whitespace : list N :=
  [ 0x09; 0x0A; 0x0B; 0x0C; 0x0D; 0x1C; 0x1D; 0x1E; 0x1F; 0x20; 0x85; 0xA0;
    0x1680; 0x2000; 0x2001; 0x2002; 0x2003; 0x2004; 0x2005; 0x2006; 0x2007;
    0x2008; 0x2009; 0x200A; 0x2028; 0x2029; 0x202F; 0x205F; 0x3000 ]%N.

Definition isspace (c : N) : bool := existsb (N.eqb c) whitespace.

(** [s.lstrip()], [s.rstrip()] and [s.strip()] with no argument. *)
Fixpoint lstrip (s : str) : str :=
  match s with
  | c :: s' => if isspace c then lstrip s' else s
  | [] => []
  end.

Definition rstrip (s : str) : str := rev (lstrip (rev s)).

Definition strip (s : str) : str := rstrip (lstrip s).

(** [s == ''] *)
Definition is_empty (s : str) : bool :=
  match s with [] => true | _ :: _ => false end.



(** The objects that reach [process_query] as [query]: the text box hands
    over a [str]; [None] is the absent value. *)
Inductive value : Type :=
| VNone
| VStr (s : str).

(** Truth value of an object, as tested by [not] and [if]. *)
Definition truthy (v : value) : bool :=
  match v with
  | VNone => false
  | VStr s => negb (is_empty s)
  end.

(** Exception classes, by their place in the hierarchy. [SystemExit],
    [KeyboardInterrupt] and [GeneratorExit] derive from [BaseException]
    directly, and so does any class given as [OtherBaseException]
    ([BaseExceptionGroup], [asyncio.CancelledError], a class of the engine's
    own); the named built-ins after them and any class given as
    [OtherException] derive from [Exception]. *)
Inductive exc_class : Type :=
| SystemExit
| KeyboardInterrupt
| GeneratorExit
| OtherBaseException (name : string)
| RuntimeError
| ValueError
| TimeoutError
| AttributeError
| OtherException (name : string).

(** [issubclass(c, Exception)] *)
Definition is_Exception (c : exc_class) : bool :=
  match c with
  | SystemExit | KeyboardInterrupt | GeneratorExit
  | OtherBaseException _ => false
  | RuntimeError | ValueError | TimeoutError | AttributeError
  | OtherException _ => true
  end.

(** A raised exception: its class and what [str(e)] does. [str(e)] runs the
    [__str__] of the class: for [Exc c text] it returns [text], for
    [ExcStrRaises c raised] it raises [raised] instead. *)
Inductive exc : Type :=
| Exc (cls : exc_class) (text : str)
| ExcStrRaises (cls : exc_class) (raised : exc).

(** [type(e)] *)
Definition exc_cls (e : exc) : exc_class :=
  match e with
  | Exc c _ | ExcStrRaises c _ => c
  end.

(** How a call ends: it returns a value or raises. *)
Inductive outcome (A : Type) : Type :=
| Return (a : A)
| Raise (e : exc).
Arguments Return {A} a.
Arguments Raise {A} e.

(** [str(e)] *)
Definition exc_str (e : exc) : outcome str :=
  match e with
  | Exc _ text => Return text
  | ExcStrRaises _ raised => Raise raised
  end.

(** [v.strip()]: defined on [str]; [None] has no such attribute. *)
Definition call_strip (v : value) : outcome str :=
  match v with
  | VStr s => Return (strip s)
  | VNone =>
      Raise (Exc AttributeError
               (lit "'NoneType' object has no attribute 'strip'"))
  end.

End Py.
Import Py.

(** ** The query gateway *)
Module Gateway.

(** A computation of the gateway: it ends with an outcome, or it calls
    [system.process_query(query, timeout=timeout)] and goes on with what
    the call returned or raised. *)
Inductive prog (A : Type) : Type :=
| Done (o : outcome A)
| SystemProcessQuery (query : value) (timeout : Z)
                     (k : outcome str → prog A).
Arguments Done {A} o.
Arguments SystemProcessQuery {A} query timeout k.

Definition ret {A} (a : A) : prog A := Done (Return a).
Definition raise {A} (e : exc) : prog A := Done (Raise e).

(** Sequencing: an exception of the first part skips the second. *)
Fixpoint bind {A B} (p : prog A) (f : A → prog B) : prog B :=
  match p with
  | Done (Return a) => f a
  | Done (Raise e) => Done (Raise e)
  | SystemProcessQuery q t k =>
      SystemProcessQuery q t (λ r, bind (k r) f)
  end.

#[export] Instance prog_ret : MRet prog := @ret.
#[export] Instance prog_bind : MBind prog := λ A B f p, bind p f.

(** [try: body / except C as e: handler]: [handler e] is [Some] when the
    exception matches the clause; a non-matching exception goes on to the
    caller. *)
Fixpoint try_except {A} (body : prog A) (handler : exc → option (prog A))
  : prog A :=
  match body with
  | Done (Return a) => Done (Return a)
  | Done (Raise e) =>
      match handler e with
      | Some h => h
      | None => Done (Raise e)
      end
  | SystemProcessQuery q t k =>
      SystemProcessQuery q t (λ r, try_except (k r) handler)
  end.

(** [except Exception as e: h e] *)
Definition except_Exception {A} (h : exc → prog A) (e : exc)
  : option (prog A) :=
  if is_Exception (exc_cls e) then Some (h e) else None.

(** The engine call itself. *)
Definition system_process_query (query : value) (timeout : Z) : prog str :=
  SystemProcessQuery query timeout Done.

(** The two literals of [process_query]. *)
Definition WARNING : str :=
  [0x26A0; 0xFE0F]%N ++ lit " Please enter a question or task.".

Definition ERROR_PREFIX : str := [0x274C%N] ++ lit " Error: ".

Definition RETRY_HINT : str :=
  lit "Please try again or reduce the timeout value.".

(** [f"❌ Error: {str(e)}\n\nPlease try again or reduce the timeout value."]:
    [str(e)] is evaluated first, and when it raises there is no string. *)
Definition error_message (e : exc) : outcome str :=
  match exc_str e with
  | Return m => Return (ERROR_PREFIX ++ m ++ [0x0A; 0x0A]%N ++ RETRY_HINT)
  | Raise e' => Raise e'
  end.

(** [not query or query.strip() == '']: [or] evaluates its right operand
    only when the left one is false. *)
Definition is_blank (query : value) : prog bool :=
  if negb (truthy query) then mret true
  else
    match call_strip query with
    | Return s => mret (is_empty s)
    | Raise e => raise e
    end.

Definition process_query (query : value) (timeout : Z) : prog str :=
  blank ← is_blank query;
  if blank : bool then mret WARNING
  else
    try_except
      (result ← system_process_query query timeout;
       mret result)
      (except_Exception (λ e, Done (error_message e))).

(** *** Running a computation against an engine

    The engine is any function of its own state, the query and the
    timeout; the run keeps the list of calls it received. *)
Definition engine (W : Type) : Type := W → value → Z → outcome str * W.

Record world (W : Type) : Type :=
  World { engine_state : W; calls : list (value * Z) }.
Arguments World {W} engine_state calls.
Arguments engine_state {W} w.
Arguments calls {W} w.

Fixpoint run {W A} (eng : engine W) (p : prog A) (w : world W)
  : outcome A * world W :=
  match p with
  | Done o => (o, w)
  | SystemProcessQuery q t k =>
      let '(r, st) := eng (engine_state w) q t in
      run eng (k r) (World st (calls w ++ [(q, t)]))
  end.

(** A deterministic engine: a function of the query and the timeout. *)
Definition pure_engine (f : value → Z → outcome str) : engine unit :=
  λ st q t, (f q t, st).

(** Engine stubs of the scenarios. *)
Definition stub_answer (q : value) (t : Z) : outcome str :=
  match q with
  | VStr s =>
      if bool_decide (s = lit "What is X?") && (t =? 90)
      then Return (lit "Answer X")
      else Return []
  | VNone => Return []
  end.

Definition stub_boom (_ : value) (_ : Z) : outcome str :=
  Raise (Exc RuntimeError (lit "boom")).



(** A fault of class [RuntimeError] whose [__str__] does not return a
    string, so that [str(e)] raises [TypeError]. *)
Definition stub_bad_str (_ : value) (_ : Z) : outcome str :=
  Raise (ExcStrRaises RuntimeError
           (Exc (OtherException "TypeError")
                (lit "__str__ returned non-string (type int)"))).

(** The world before the first request. *)
Definition fresh : world unit := World () [].

End Gateway.
Import Gateway.

(** ** Module start-up *)
Module Bootstrap.

(** What the module body does to the outside, in order. *)
Inductive event : Type :=
| LoadDotenv
| Print (s : str)
| ConstructEngine
| BuildInterface
| Launch (share : bool) (server_name : str) (server_port : Z)
         (show_error : bool).

(** The statements of the module body: the events so far and how the
    body ended. *)
Definition boot (A : Type) : Type := list event * outcome A.

Definition emit (e : event) : boot unit := ([e], Return ()).

#[export] Instance boot_ret : MRet boot := λ A a, ([], Return a).
#[export] Instance boot_bind : MBind boot := λ A B f m,
  match m with
  | (tr, Return a) => let '(tr', o) := f a in (tr ++ tr', o)
  | (tr, Raise e) => (tr, Raise e)
  end.

(** [os.getenv(key)]: the value, or [None]. *)
Definition getenv (environ : gmap string str) (key : string) : value :=
  match environ !! key with
  | Some s => VStr s
  | None => VNone
  end.

Definition MISSING_KEY : str :=
  lit "OPENAI_API_KEY not found in environment variables. Please set it in your .env file".

Definition is_construct (e : event) : bool :=
  match e with ConstructEngine => true | _ => false end.

Definition constructions (tr : list event) : nat :=
  length (List.filter is_construct tr).

Definition is_launch (e : event) : bool :=
  match e with Launch _ _ _ _ => true | _ => false end.

Definition served (tr : list event) : bool := existsb is_launch tr.

Definition rule : str := replicate 80 0x3D%N.

Section Module_body.

(** [load_dotenv()] rewrites [os.environ] from a [.env] file; the
    constructor of the engine returns the instance or raises. Both are
    external. *)
Context {System : Type}.
Variable load_dotenv : gmap string str → gmap string str.
Variable HistoryDataCollaborationSystem : outcome System.

(** The [if __name__ == "__main__":] block. *)
Definition main_block : boot unit :=
  emit (Print rule);;
  emit (Print ([0x1F310%N]
               ++ lit " Launching History-Data Collaboration System UI..."));;
  emit (Print rule);;
  emit (Print ([0x1F4DD%N]
               ++ lit " Make sure your .env file has OPENAI_API_KEY set"));;
  emit (Print ([0x1F310%N]
               ++ lit " The app will open in your browser automatically"));;
  emit (Print ([0x1F517%N]
               ++ lit " A public shareable link will be generated"));;
  emit (Print rule);;
  emit (Print []);;
  emit (Launch true (lit "0.0.0.0") 7860 true).

(** The module body, top to bottom; its value is the global [system]. *)
Definition app (name_is_main : bool) (environ : gmap string str)
  : boot System :=
  emit LoadDotenv;;
  let environ := load_dotenv environ in
  (if negb (truthy (getenv environ "OPENAI_API_KEY"))
   then (([], Raise (Exc ValueError MISSING_KEY)) : boot unit)
   else mret ());;
  emit (Print ([0x1F680%N]
               ++ lit " Initializing History-Data Collaboration System..."));;
  system ← (([ConstructEngine], HistoryDataCollaborationSystem) : boot System);
  emit (Print ([0x2705%N] ++ lit " System ready!" ++ [0x0A%N]));;
  emit BuildInterface;;
  (if name_is_main then main_block else mret ());;
  mret system.

End Module_body.

End Bootstrap.
Import Bootstrap.

(** ** The interface object *)
Module Interface.

(** [gr.Slider(minimum=30, maximum=300, value=120, step=10, ...)] *)
Record Slider : Type :=
  { slider_minimum : Z; slider_maximum : Z; slider_value : Z;
    slider_step : Z }.

Definition timeout_slider : Slider :=
  {| slider_minimum := 30; slider_maximum := 300; slider_value := 120;
     slider_step := 10 |}.

(** The positions of a slider: from the minimum to the maximum, in whole
    steps. *)
Definition on_slider (sl : Slider) (t : Z) : bool :=
  (slider_minimum sl <=? t) && (t <=? slider_maximum sl)
  && ((t - slider_minimum sl) mod slider_step sl =? 0).

(** [examples=[[question, timeout], ...]] *)
Definition examples : list (str * Z) :=
  [ (lit "How did urbanization rates in Europe compare to those in North America during the Industrial Revolution, and what were the main factors influencing these trends?",
     120);
    (lit "What were the economic impacts of the Silk Road on medieval trade patterns, and how did it influence cultural exchange?",
     120);
    (lit "Analyze the correlation between technological advancement and societal change during the Renaissance period.",
     100);
    (lit "Compare the population growth rates of major civilizations during the Bronze Age and identify key factors.",
     120) ].

End Interface.
Import Interface.

(** ** Successive requests *)
Module Session.

(** A query with at least one character that is not white space; [None]
    has none. *)
Definition has_text (query : value) : bool :=
  match query with
  | VStr s => negb (forallb isspace s)
  | VNone => false
  end.

(** [process_query] called once per request, in order, each call starting in
    the world the one before left; the outcome of every call is kept. *)
Fixpoint serve {W} (eng : engine W) (requests : list (value * Z))
    (w : world W) : list (outcome str) * world W :=
  match requests with
  | [] => ([], w)
  | (query, timeout) :: rest =>
      let '(o, w1) := run eng (process_query query timeout) w in
      let '(os, w2) := serve eng rest w1 in
      (o :: os, w2)
  end.

(** An engine that answers everything with the text of the warning. *)
Definition stub_warning (_ : value) (_ : Z) : outcome str := Return WARNING.

End Session.
Import Session.

Example strip_ex1 : strip (lit "  hi there	 ") = lit "hi there".
Proof. reflexivity. Qed.
Example strip_ex2 : strip (lit "   ") = [].
Proof. reflexivity. Qed.
Example strip_ex3 : strip ([0xA0; 0x3000; 0x61; 0x2003]%N) = [0x61%N].
Proof. reflexivity. Qed.

Example scenario_empty :
  run (pure_engine stub_answer) (process_query (VStr []) 120) fresh
  = (Return WARNING, fresh).
Proof. reflexivity. Qed.

Example scenario_spaces :
  run (pure_engine stub_answer) (process_query (VStr (lit "   ")) 60) fresh
  = (Return WARNING, fresh).
Proof. reflexivity. Qed.

Example scenario_answer :
  (run (pure_engine stub_answer)
       (process_query (VStr (lit "What is X?")) 90) fresh).1
  = Return (lit "Answer X").
Proof. reflexivity. Qed.

Example scenario_boom :
  (run (pure_engine stub_boom) (process_query (VStr (lit "Q")) 30) fresh).1
  = Return ([0x274C%N] ++ lit " Error: boom" ++ [0x0A; 0x0A]%N ++ RETRY_HINT).
Proof. reflexivity. Qed.

Example scenario_bad_str :
  (run (pure_engine stub_bad_str) (process_query (VStr (lit "Q")) 30) fresh).1
  = Raise (Exc (OtherException "TypeError")
               (lit "__str__ returned non-string (type int)")).
Proof. reflexivity. Qed.

Example scenario_cancelled :
  (run (pure_engine
          (λ _ _, Raise (Exc (OtherBaseException "CancelledError") [])))
       (process_query (VStr (lit "Q")) 30) fresh).1
  = Raise (Exc (OtherBaseException "CancelledError") []).
Proof. reflexivity. Qed.

Example boot_no_key :
  app (System := unit) id (Return ()) true ∅
  = ([LoadDotenv], Raise (Exc ValueError MISSING_KEY)).
Proof. reflexivity. Qed.

Example boot_empty_key :
  app (System := unit) id (Return ()) true {[ "OPENAI_API_KEY"%string := [] ]}
  = ([LoadDotenv], Raise (Exc ValueError MISSING_KEY)).
Proof. vm_compute. reflexivity. Qed.

Example boot_with_key :
  constructions
    (app (System := unit) id (Return ()) true
         {[ "OPENAI_API_KEY"%string := lit "sk-test" ]}).1 = 1%nat.
Proof. vm_compute. reflexivity. Qed.

(** ** Whitespace trimming *)
Section Strip.

Implicit Types s p : str.

Lemma lstrip_all_space s : forallb isspace s = true → lstrip s = [].
Proof.
  induction s as [|c s IH]; simpl; [done|].
  destruct (isspace c); simpl; [exact IH | discriminate].
Qed.

Lemma lstrip_nil_inv s : lstrip s = [] → forallb isspace s = true.
Proof.
  induction s as [|c s IH]; simpl; [done|].
  destruct (isspace c); simpl; [exact IH | discriminate].
Qed.

Lemma forallb_isspace_lstrip s :
  forallb isspace (lstrip s) = forallb isspace s.
Proof.
  induction s as [|c s IH]; simpl; [done|].
  destruct (isspace c) eqn:Hc; simpl; [exact IH | by rewrite Hc].
Qed.

Lemma forallb_rev (f : N → bool) s : forallb f (rev s) = forallb f s.
Proof.
  induction s as [|c s IH]; simpl; [done|].
  rewrite forallb_app, IH. simpl. rewrite andb_true_r. apply andb_comm.
Qed.

Lemma rstrip_nil_iff s : rstrip s = [] ↔ forallb isspace s = true.
Proof.
  unfold rstrip. split.
  - intros H. rewrite <- forallb_rev. apply lstrip_nil_inv.
    rewrite <- (rev_involutive (lstrip (rev s))). by rewrite H.
  - intros H. rewrite lstrip_all_space; [done|]. by rewrite forallb_rev.
Qed.

(** [s.strip() == ''] exactly when every character of [s] is white. *)
Lemma strip_nil_iff s : strip s = [] ↔ forallb isspace s = true.
Proof.
  unfold strip. rewrite rstrip_nil_iff. by rewrite forallb_isspace_lstrip.
Qed.




End Strip.

(** ** The three ways a request ends *)
Section Runs.

Context {W : Type}.
Variable eng : engine W.
Implicit Types (w : world W) (q : str) (t : Z).

Lemma process_query_blank q t :
  strip q = [] → process_query (VStr q) t = Done (Return WARNING).
Proof.
  intros H. unfold process_query, is_blank.
  destruct q as [|c q]; [done|]. simpl truthy. simpl negb.
  simpl call_strip. by rewrite H.
Qed.

Lemma process_query_calls q t :
  strip q ≠ [] →
  process_query (VStr q) t
  = SystemProcessQuery (VStr q) t
      (λ r, try_except (Done r ≫= mret)
              (except_Exception (λ e, Done (error_message e)))).
Proof.
  intros H. unfold process_query, is_blank.
  destruct q as [|c q]; [done|]. simpl truthy. simpl negb.
  simpl call_strip. by destruct (strip (c :: q)).
Qed.

Lemma run_engine_returns w q t r st :
  strip q ≠ [] →
  eng (engine_state w) (VStr q) t = (Return r, st) →
  run eng (process_query (VStr q) t) w
  = (Return r, World st (calls w ++ [(VStr q, t)])).
Proof.
  intros Hq He. rewrite process_query_calls by done.
  simpl. by rewrite He.
Qed.

Lemma run_engine_raises_Exception w q t e st :
  strip q ≠ [] →
  eng (engine_state w) (VStr q) t = (Raise e, st) →
  is_Exception (exc_cls e) = true →
  run eng (process_query (VStr q) t) w
  = (error_message e, World st (calls w ++ [(VStr q, t)])).
Proof.
  intros Hq He Hc. rewrite process_query_calls by done.
  simpl. rewrite He. simpl. unfold except_Exception. by rewrite Hc.
Qed.

Lemma run_engine_raises_other w q t e st :
  strip q ≠ [] →
  eng (engine_state w) (VStr q) t = (Raise e, st) →
  is_Exception (exc_cls e) = false →
  run eng (process_query (VStr q) t) w
  = (Raise e, World st (calls w ++ [(VStr q, t)])).
Proof.
  intros Hq He Hc. rewrite process_query_calls by done.
  simpl. rewrite He. simpl. unfold except_Exception. by rewrite Hc.
Qed.

Lemma run_blank w q t :
  strip q = [] → run eng (process_query (VStr q) t) w = (Return WARNING, w).
Proof. intros H. by rewrite process_query_blank. Qed.

Lemma run_None w t :
  run eng (process_query VNone t) w = (Return WARNING, w).
Proof. reflexivity. Qed.

End Runs.

(** ** Queries with text *)

Lemma has_text_strip (q : str) : has_text (VStr q) = negb (is_empty (strip q)).
Proof.
  simpl. destruct (forallb isspace q) eqn:Hq.
  - apply strip_nil_iff in Hq. by rewrite Hq.
  - destruct (strip q) as [|c s] eqn:Hs; [|done].
    apply strip_nil_iff in Hs. congruence.
Qed.

Lemma has_text_true (q : str) : has_text (VStr q) = true → strip q ≠ [].
Proof. rewrite has_text_strip. by destruct (strip q). Qed.

Lemma has_text_false (q : str) : has_text (VStr q) = false → strip q = [].
Proof. rewrite has_text_strip. by destruct (strip q). Qed.

(** The world a request leaves behind. *)
Lemma run_world {W} (eng : engine W) (w : world W) (query : value) (t : Z) :
  (run eng (process_query query t) w).2
  = if has_text query
    then World (eng (engine_state w) query t).2 (calls w ++ [(query, t)])
    else w.
Proof.
  destruct query as [|q]; [done|].
  destruct (has_text (VStr q)) eqn:Hq.
  - apply has_text_true in Hq. rewrite process_query_calls by done. simpl.
    destruct (eng (engine_state w) (VStr q) t) as [[r|e] st]; simpl; [done|].
    unfold except_Exception. by destruct (is_Exception (exc_cls e)).
  - apply has_text_false in Hq. by rewrite run_blank.
Qed.


(** ** Properties of [process_query] *)

(** C1: for a query that is non-empty after trimming and any timeout, when
    the engine's call returns [r], [process_query] returns exactly [r]. *)
Theorem process_query_returns_engine_result
    {W} (eng : engine W) (w : world W) (q : str) (t : Z) (r : str) (st : W) :
  strip q ≠ [] →
  eng (engine_state w) (VStr q) t = (Return r, st) →
  (run eng (process_query (VStr q) t) w).1 = Return r.
Proof. intros Hq He. by rewrite (run_engine_returns eng w q t r st). Qed.

Lemma process_query_returns_engine_result_witness :
  strip (lit "What is X?") ≠ [] ∧
  pure_engine stub_answer (engine_state fresh) (VStr (lit "What is X?")) 90
  = (Return (lit "Answer X"), ()) ∧
  (run (pure_engine stub_answer)
       (process_query (VStr (lit "What is X?")) 90) fresh).1
  = Return (lit "Answer X").
Proof.
  split; [discriminate|]. split; [reflexivity|].
  apply (process_query_returns_engine_result
           (pure_engine stub_answer) fresh (lit "What is X?") 90
           (lit "Answer X") ());
    [discriminate | reflexivity].
Defined.

(** C2: for a query that is empty or made of whitespace only, and any
    timeout, [process_query] returns the fixed warning and the engine is not
    called: the engine's state and the list of calls are as before. *)
Theorem blank_query_warns_without_engine_call
    {W} (eng : engine W) (w : world W) (q : str) (t : Z) :
  q = [] ∨ forallb isspace q = true →
  process_query (VStr q) t = Done (Return WARNING) ∧
  run eng (process_query (VStr q) t) w = (Return WARNING, w).
Proof.
  intros Hq.
  assert (strip q = []) as Hs.
  { destruct Hq as [-> | Hq]; [reflexivity | by apply strip_nil_iff]. }
  split; [by apply process_query_blank | by apply run_blank].
Qed.

Lemma blank_query_warns_without_engine_call_witness :
  forallb isspace (lit "   ") = true ∧
  process_query (VStr (lit "   ")) 60 = Done (Return WARNING) ∧
  run (pure_engine stub_boom) (process_query (VStr (lit "   ")) 60) fresh
  = (Return WARNING, fresh).
Proof.
  split; [reflexivity|].
  apply (blank_query_warns_without_engine_call
           (pure_engine stub_boom) fresh (lit "   ") 60).
  right. reflexivity.
Defined.




(** With a deterministic engine the outcome of a computation does not
    depend on the world it is run in. *)
Lemma run_pure_outcome {A} (f : value → Z → outcome str) (p : prog A)
    (w w' : world unit) :
  (run (pure_engine f) p w).1 = (run (pure_engine f) p w').1.
Proof.
  revert w w'. induction p as [o | q t k IH]; intros w w'; simpl; [done|].
  apply IH.
Qed.

(** A run only ever appends to the list of calls. *)
Lemma run_calls_prefix {W A} (eng : engine W) (p : prog A) (w : world W) :
  calls w `prefix_of` calls (run eng p w).2.
Proof.
  revert w. induction p as [o | q t k IH]; intros w; simpl; [done|].
  destruct (eng (engine_state w) q t) as [r st].
  etrans; [|apply IH]. simpl. by apply prefix_app_r.
Qed.



(** C6: against a deterministic engine, a function of (query, timeout),
    two calls of [process_query] with the same arguments, one after the
    other, end the same way. *)
Theorem process_query_twice_same_output
    (f : value → Z → outcome str) (w : world unit)
    (query : value) (timeout : Z) :
  let first := run (pure_engine f) (process_query query timeout) w in
  let second := run (pure_engine f) (process_query query timeout) first.2 in
  first.1 = second.1.
Proof. simpl. apply run_pure_outcome. Qed.

(** C7: for a query that is non-empty after trimming and any integer
    timeout, in or out of [30, 300], the engine is called once and receives
    the timeout as given. *)
Theorem timeout_passed_unchanged
    {W} (eng : engine W) (w : world W) (q : str) (t : Z) :
  strip q ≠ [] →
  calls (run eng (process_query (VStr q) t) w).2 = calls w ++ [(VStr q, t)].
Proof.
  intros Hq. rewrite process_query_calls by done. simpl.
  destruct (eng (engine_state w) (VStr q) t) as [[r|e] st]; simpl; [done|].
  unfold except_Exception. by destruct (is_Exception (exc_cls e)).
Qed.

Lemma timeout_passed_unchanged_witness :
  strip (lit "Q") ≠ [] ∧
  calls (run (pure_engine stub_answer)
             (process_query (VStr (lit "Q")) (-7)) fresh).2
  = calls fresh ++ [(VStr (lit "Q"), -7)].
Proof.
  split; [discriminate|].
  apply (timeout_passed_unchanged (pure_engine stub_answer) fresh
           (lit "Q") (-7)).
  discriminate.
Defined.

(** C8: for a query that is non-empty after trimming, the engine receives
    the query as given; when trimming would change it, the trimmed text is
    not what the engine gets. *)
Theorem query_forwarded_untrimmed
    {W} (eng : engine W) (w : world W) (q : str) (t : Z) :
  strip q ≠ [] →
  ∃ k, process_query (VStr q) t = SystemProcessQuery (VStr q) t k ∧
       last (calls (run eng (process_query (VStr q) t) w).2).*1
       = Some (VStr q) ∧
       (strip q ≠ q →
        last (calls (run eng (process_query (VStr q) t) w).2).*1
        ≠ Some (VStr (strip q))).
Proof.
  intros Hq. eexists. split; [by apply process_query_calls|].
  assert (last (calls (run eng (process_query (VStr q) t) w).2).*1
          = Some (VStr q)) as Hl.
  { rewrite process_query_calls by done. simpl.
    destruct (eng (engine_state w) (VStr q) t) as [[r|e] st]; simpl.
    - rewrite fmap_app. apply last_snoc.
    - unfold except_Exception.
      destruct (is_Exception (exc_cls e)); simpl;
        rewrite fmap_app; apply last_snoc. }
  split; [exact Hl|]. intros Hne. rewrite Hl. congruence.
Qed.

Lemma query_forwarded_untrimmed_witness :
  strip (lit "  hi  ") ≠ [] ∧
  ∃ k, process_query (VStr (lit "  hi  ")) 120
       = SystemProcessQuery (VStr (lit "  hi  ")) 120 k ∧
       last (calls (run (pure_engine stub_answer)
                        (process_query (VStr (lit "  hi  ")) 120) fresh).2).*1
       = Some (VStr (lit "  hi  ")) ∧
       (strip (lit "  hi  ") ≠ lit "  hi  " →
        last (calls (run (pure_engine stub_answer)
                         (process_query (VStr (lit "  hi  ")) 120) fresh).2).*1
        ≠ Some (VStr (strip (lit "  hi  ")))).
Proof.
  split; [discriminate|].
  apply (query_forwarded_untrimmed (pure_engine stub_answer) fresh
           (lit "  hi  ") 120).
  discriminate.
Defined.

(** C9: for a query that is empty or made of whitespace only, the result of
    [process_query] is the same for any two timeouts. *)
Theorem blank_query_ignores_timeout
    {W} (eng : engine W) (w : world W) (q : str) (t1 t2 : Z) :
  q = [] ∨ forallb isspace q = true →
  process_query (VStr q) t1 = process_query (VStr q) t2 ∧
  run eng (process_query (VStr q) t1) w
  = run eng (process_query (VStr q) t2) w.
Proof.
  intros Hq.
  assert (strip q = []) as Hs.
  { destruct Hq as [-> | Hq]; [reflexivity | by apply strip_nil_iff]. }
  by rewrite !process_query_blank.
Qed.

Lemma blank_query_ignores_timeout_witness :
  forallb isspace (lit " 	 ") = true ∧
  process_query (VStr (lit " 	 ")) 30 = process_query (VStr (lit " 	 ")) 300 ∧
  run (pure_engine stub_answer) (process_query (VStr (lit " 	 ")) 30) fresh
  = run (pure_engine stub_answer) (process_query (VStr (lit " 	 ")) 300) fresh.
Proof.
  split; [reflexivity|].
  apply (blank_query_ignores_timeout (pure_engine stub_answer) fresh
           (lit " 	 ") 30 300).
  right. reflexivity.
Defined.

(** C10: when the query is [None], [process_query] returns the fixed warning
    and raises nothing, with no engine call: [not query] is already true, so
    [query.strip()], which would raise [AttributeError] on [None], is not
    evaluated. *)
Theorem None_query_warns
    {W} (eng : engine W) (w : world W) (t : Z) :
  is_blank VNone = Done (Return true) ∧
  run eng (process_query VNone t) w = (Return WARNING, w) ∧
  ∃ m, call_strip VNone = Raise (Exc AttributeError m).
Proof.
  split; [reflexivity|]. split; [apply run_None|]. by eexists.
Qed.

(** ** Start-up *)

(** The module body stops at the credential check when [os.getenv] gives
    [None] or the empty string. *)
Lemma app_without_key {System} (load_dotenv : gmap string str → gmap string str)
    (ctor : outcome System) (name_is_main : bool) (environ : gmap string str) :
  truthy (getenv (load_dotenv environ) "OPENAI_API_KEY") = false →
  app load_dotenv ctor name_is_main environ
  = ([LoadDotenv], Raise (Exc ValueError MISSING_KEY)).
Proof. intros H. unfold app. rewrite H. reflexivity. Qed.

(** C5: at start-up, after [load_dotenv()], if OPENAI_API_KEY is absent from
    the environment or empty, the module body ends with the configuration
    error (a [ValueError]) before the engine is constructed and before the
    interface is built or launched; if it is present and non-empty, the
    engine constructor is called exactly once, and when it returns the
    start-up completes, the interface being launched when the file is run
    as the main program. *)
Theorem startup_credential_gate
    {System} (load_dotenv : gmap string str → gmap string str)
    (ctor : outcome System) (name_is_main : bool) (environ : gmap string str) :
  let key := load_dotenv environ !! "OPENAI_API_KEY"%string in
  let booted := app load_dotenv ctor name_is_main environ in
  ((key = None ∨ key = Some []) →
   booted.2 = Raise (Exc ValueError MISSING_KEY) ∧
   constructions booted.1 = 0%nat ∧
   (BuildInterface ∉ booted.1) ∧
   served booted.1 = false) ∧
  ((∃ s, key = Some s ∧ s ≠ []) →
   constructions booted.1 = 1%nat ∧
   (∀ system, ctor = Return system →
      booted.2 = Return system ∧ (BuildInterface ∈ booted.1) ∧
      served booted.1 = name_is_main) ∧
   (∀ e, ctor = Raise e → booted.2 = Raise e ∧ served booted.1 = false)).
Proof.
  intros key booted. split.
  - intros Hk.
    assert (truthy (getenv (load_dotenv environ) "OPENAI_API_KEY") = false)
      as Hf.
    { unfold getenv. fold key. by destruct Hk as [-> | ->]. }
    subst booted. rewrite (app_without_key _ _ _ _ Hf). simpl.
    split; [done|]. split; [done|]. split; [|done].
    intros Hin. apply list_elem_of_singleton in Hin. discriminate.
  - intros (s & Hk & Hs).
    assert (truthy (getenv (load_dotenv environ) "OPENAI_API_KEY") = true)
      as Ht.
    { unfold getenv. fold key. rewrite Hk. by destruct s. }
    subst booted. unfold app. rewrite Ht.
    destruct ctor as [system|e].
    + split; [by destruct name_is_main|]. split; [|by intros ? [=]].
      intros ? [= <-]. split; [by destruct name_is_main|].
      split; [|by destruct name_is_main].
      apply list_elem_of_In. destruct name_is_main; cbn; tauto.
    + split; [reflexivity|]. split; [by intros ? [=]|].
      intros ? [= <-]. split; reflexivity.
Qed.

Lemma startup_credential_gate_witness :
  let absent : gmap string str := ∅ in
  let present : gmap string str :=
    {[ "OPENAI_API_KEY"%string := lit "sk-test" ]} in
  (absent !! "OPENAI_API_KEY"%string = None ∧
   (app (System := unit) id (Return ()) true absent).2
   = Raise (Exc ValueError MISSING_KEY) ∧
   constructions (app (System := unit) id (Return ()) true absent).1 = 0%nat) ∧
  (present !! "OPENAI_API_KEY"%string = Some (lit "sk-test") ∧
   constructions (app (System := unit) id (Return ()) true present).1 = 1%nat).
Proof.
  intros absent present. split.
  - split; [reflexivity|].
    destruct (startup_credential_gate (System := unit) id (Return ()) true
                absent) as [H _].
    destruct H as (H1 & H2 & _); [left; reflexivity|].
    split; [exact H1 | exact H2].
  - split; [vm_compute; reflexivity|].
    destruct (startup_credential_gate (System := unit) id (Return ()) true
                present) as [_ H].
    destruct H as (H1 & _); [|exact H1].
    exists (lit "sk-test"). split; [vm_compute; reflexivity | discriminate].
Defined.

(** ** One request, whatever the query *)

(** X1: a request calls the engine at most once, and exactly when the query
    is a string with a character that is not white space; the engine then
    gets the query and the timeout as given, and its state afterwards is the
    one that single call left, also when the call raised: no retry and no
    second call. For [None] and for blank strings the world is untouched. *)
Theorem request_calls_engine_once_iff_text
    {W} (eng : engine W) (w : world W) (query : value) (timeout : Z) :
  (run eng (process_query query timeout) w).2
  = if has_text query
    then World (eng (engine_state w) query timeout).2
               (calls w ++ [(query, timeout)])
    else w.
Proof. apply run_world. Qed.


Lemma error_message_not_WARNING (e : exc) : error_message e ≠ Return WARNING.
Proof.
  unfold error_message. destruct (exc_str e) as [m|x]; [|discriminate].
  unfold ERROR_PREFIX, WARNING. simpl. congruence.
Qed.

(** X3: a query with text never gets the blank-input warning from the
    gateway itself: if [process_query] returns the warning for it, the
    engine was called and that text is what the engine returned. *)
Theorem warning_for_text_comes_from_engine
    {W} (eng : engine W) (w : world W) (q : str) (t : Z) :
  strip q ≠ [] →
  (run eng (process_query (VStr q) t) w).1 = Return WARNING →
  ∃ st, eng (engine_state w) (VStr q) t = (Return WARNING, st).
Proof.
  intros Hq Hr.
  destruct (eng (engine_state w) (VStr q) t) as [[r|e] st] eqn:He.
  - rewrite (run_engine_returns eng w q t r st) in Hr by done.
    simpl in Hr. injection Hr as ->. by exists st.
  - destruct (is_Exception (exc_cls e)) eqn:Hc.
    + rewrite (run_engine_raises_Exception eng w q t e st) in Hr by done.
      exfalso. by apply (error_message_not_WARNING e).
    + rewrite (run_engine_raises_other eng w q t e st) in Hr by done.
      discriminate Hr.
Qed.

Lemma warning_for_text_comes_from_engine_witness :
  strip (lit "Q") ≠ [] ∧
  (run (pure_engine stub_warning) (process_query (VStr (lit "Q")) 30) fresh).1
  = Return WARNING ∧
  ∃ st, pure_engine stub_warning (engine_state fresh) (VStr (lit "Q")) 30
        = (Return WARNING, st).
Proof.
  split; [discriminate|]. split; [reflexivity|].
  apply (warning_for_text_comes_from_engine (pure_engine stub_warning) fresh
           (lit "Q") 30); [discriminate | reflexivity].
Defined.

(** ** Successive requests *)

Lemma serve_cons {W} (eng : engine W) (query : value) (t : Z)
    (rest : list (value * Z)) (w : world W) :
  serve eng ((query, t) :: rest) w
  = ((run eng (process_query query t) w).1
       :: (serve eng rest (run eng (process_query query t) w).2).1,
     (serve eng rest (run eng (process_query query t) w).2).2).
Proof.
  simpl. destruct (run eng (process_query query t) w) as [o w1].
  simpl. by destruct (serve eng rest w1).
Qed.

(** X4: over any sequence of requests the engine receives exactly the
    requests whose query has text, in the order they came and with query
    and timeout as given; blank and [None] requests leave no trace. *)
Theorem session_engine_sees_requests_with_text
    {W} (eng : engine W) (requests : list (value * Z)) (w : world W) :
  calls (serve eng requests w).2
  = calls w ++ List.filter (λ r, has_text r.1) requests.
Proof.
  revert w. induction requests as [|[query t] rest IH]; intros w.
  - simpl. by rewrite app_nil_r.
  - rewrite serve_cons. cbn [snd]. rewrite IH, run_world. simpl.
    destruct (has_text query); simpl; [|done].
    by rewrite <- app_assoc.
Qed.




(** ** Order of the start-up events *)

Lemma split_at_final_launch (l0 pre post : list event) (final ev : event) :
  forallb (λ e, negb (is_launch e)) l0 = true →
  l0 ++ [final] = pre ++ ev :: post →
  is_launch ev = true →
  pre = l0 ∧ ev = final ∧ post = [].
Proof.
  revert pre. induction l0 as [|a l0 IH]; intros pre Hno Heq Hev.
  - destruct pre as [|p pre]; simpl in Heq.
    + by injection Heq as <- <-.
    + injection Heq as _ Heq. by destruct pre.
  - simpl in Hno. apply andb_true_iff in Hno as [Ha Hno].
    destruct pre as [|p pre]; simpl in Heq.
    + injection Heq as <- _. rewrite Hev in Ha. discriminate.
    + injection Heq as <- Heq.
      destruct (IH pre Hno Heq Hev) as (-> & -> & ->). done.
Qed.

Lemma served_split (pre post : list event) (ev : event) :
  is_launch ev = true → served (pre ++ ev :: post) = true.
Proof.
  intros Hev. unfold served. rewrite existsb_app. simpl. rewrite Hev.
  apply orb_true_r.
Qed.

(** X7: in every start-up, a launch of the interface, if there is one, is
    the last event; it comes after the engine was constructed (the
    constructor returned) and the interface was built, only when the file
    runs as the main program, and always with [share=True], host
    "0.0.0.0", port 7860 and [show_error=True]. *)
Theorem launch_is_last_and_after_engine
    {System} (load_dotenv : gmap string str → gmap string str)
    (ctor : outcome System) (name_is_main : bool) (environ : gmap string str)
    (pre post : list event) (ev : event) :
  (app load_dotenv ctor name_is_main environ).1 = pre ++ ev :: post →
  is_launch ev = true →
  post = [] ∧
  ev = Launch true (lit "0.0.0.0") 7860 true ∧
  ConstructEngine ∈ pre ∧ BuildInterface ∈ pre ∧
  name_is_main = true ∧ ∃ system, ctor = Return system.
Proof.
  intros Htr Hev.
  pose proof (served_split pre post ev Hev) as Hserved.
  rewrite <- Htr in Hserved.
  destruct (truthy (getenv (load_dotenv environ) "OPENAI_API_KEY")) eqn:Hk.
  - unfold app in Htr, Hserved. rewrite Hk in Htr, Hserved.
    destruct ctor as [system|e]; [|discriminate Hserved].
    destruct name_is_main; [|discriminate Hserved].
    match type of Htr with
    | ?tr = _ =>
        assert (tr = removelast tr ++ [Launch true (lit "0.0.0.0") 7860 true])
          as Hshape by reflexivity;
        assert (forallb (λ e, negb (is_launch e)) (removelast tr) = true)
          as Hno by reflexivity;
        assert (ConstructEngine ∈ removelast tr ∧ BuildInterface ∈ removelast tr)
          as [Hc Hb] by (rewrite !list_elem_of_In; cbn; tauto);
        rewrite Hshape in Htr;
        destruct (split_at_final_launch _ _ _ _ _ Hno Htr Hev)
          as (-> & -> & ->)
    end.
    repeat split; eauto.
  - rewrite app_without_key in Hserved by done. discriminate Hserved.
Qed.

Lemma launch_is_last_and_after_engine_witness :
  let environ : gmap string str :=
    {[ "OPENAI_API_KEY"%string := lit "sk-test" ]} in
  let trace := (app (System := unit) id (Return ()) true environ).1 in
  let ev := Launch true (lit "0.0.0.0") 7860 true in
  trace = removelast trace ++ ev :: [] ∧
  is_launch ev = true ∧
  ConstructEngine ∈ removelast trace ∧ BuildInterface ∈ removelast trace.
Proof.
  intros environ trace ev.
  assert (trace = removelast trace ++ ev :: []) as Htr
    by (vm_compute; reflexivity).
  split; [exact Htr|]. split; [reflexivity|].
  destruct (launch_is_last_and_after_engine (System := unit) id (Return ())
              true environ (removelast trace) [] ev Htr eq_refl)
    as (_ & _ & Hc & Hb & _).
  split; [exact Hc | exact Hb].
Defined.

(** ** The examples of the interface *)

Lemma examples_well_formed :
  Forall (λ ex, is_empty (strip ex.1) = false
                ∧ on_slider timeout_slider ex.2 = true) examples.
Proof. repeat constructor. Qed.

(** X8: every example offered by the interface is a usable request: its
    timeout is a position of the timeout slider (between 30 and 300, a whole
    number of steps of 10 above 30), and its question has text, so that
    [process_query] passes it to the engine, once and as written, instead of
    answering with the warning. The slider's initial value is a position of
    the slider as well. *)
Theorem examples_are_valid_requests
    {W} (eng : engine W) (w : world W) (q : str) (t : Z) :
  (q, t) ∈ examples →
  on_slider timeout_slider (slider_value timeout_slider) = true ∧
  on_slider timeout_slider t = true ∧
  30 ≤ t ≤ 300 ∧
  calls (run eng (process_query (VStr q) t) w).2 = calls w ++ [(VStr q, t)].
Proof.
  intros Hin.
  pose proof examples_well_formed as Hall.
  rewrite Forall_forall in Hall. destruct (Hall _ Hin) as [Hq Ht].
  simpl in Hq, Ht. split; [reflexivity|]. split; [exact Ht|].
  split.
  - unfold on_slider in Ht. simpl in Ht.
    apply andb_true_iff in Ht as [Ht _]. apply andb_true_iff in Ht as [H1 H2].
    lia.
  - rewrite run_world. rewrite has_text_strip, Hq. reflexivity.
Qed.

Lemma examples_are_valid_requests_witness :
  let q := lit "Analyze the correlation between technological advancement and societal change during the Renaissance period." in
  (q, 100) ∈ examples ∧
  on_slider timeout_slider 100 = true ∧
  calls (run (pure_engine stub_answer) (process_query (VStr q) 100) fresh).2
  = [(VStr q, 100)].
Proof.
  intros q.
  assert ((q, 100) ∈ examples) as Hin by (do 2 right; left).
  split; [exact Hin|].
  destruct (examples_are_valid_requests (pure_engine stub_answer) fresh
              q 100 Hin) as (_ & Ht & _ & Hc).
  split; [exact Ht | exact Hc].
Defined.
